(** * Scheduler model of misc/scheduler-model/graph.py

    A shallow embedding of the critical-time priority computation, the
    75th-percentile runtime estimator and the list-scheduling simulator.

    Python objects are mutable and compared by identity, so [Node] and
    [Edge] objects live in a store indexed by references; a reference always
    denotes an object, hence the store is a total function.  Integers are
    unbounded ([Z]).  Loops written [while] take a fuel argument that counts
    iterations; exhausting it is reported as [OutOfFuel], never as a
    result.

    The function bodies are modelled as Python 3 runs them.  A bare name
    that is neither a local of the function nor bound at module level
    ([ready], [waiting_for], [queue], [inputs]) raises [NameError] when it
    is read; the module [heapq] has no attribute [push] or [pop] and a
    [deque] has no attribute [push], so reading them raises
    [AttributeError]; sorting a collection that holds [None] beside an
    integer raises [TypeError].  A call that raises is reported as
    [Raised]; what it had written to the objects before is not tracked. *)

From stdpp Require Import base numbers option list sorting functions gmap strings.
From Stdlib Require Import ZArith Lia.

Local Open Scope Z_scope.

(** ** Outcomes of a call *)

Inductive exn : Set :=
| KeyError | ValueError | IndexError | AttributeError | NameError | TypeError.

Inductive outcome (A : Type) : Type :=
| Returned (a : A)
| Raised (x : exn)
| OutOfFuel.
Arguments Returned {A} a.
Arguments Raised {A} x.
Arguments OutOfFuel {A}.

Definition bind {A B} (m : outcome A) (k : A → outcome B) : outcome B :=
  match m with
  | Returned a => k a
  | Raised x => Raised x
  | OutOfFuel => OutOfFuel
  end.

Notation "x ←! m ; k" := (bind m (λ x, k))
  (at level 100, m at next level, right associativity).

Definition outcome_map {A B} (f : A → B) (m : outcome A) : outcome B :=
  x ←! m; Returned (f x).

(** A [for] loop over a list whose body may raise: the first exception
    ends the loop. *)
Fixpoint for_each {S A} (body : S → A → outcome S) (st : S) (l : list A) : outcome S :=
  match l with
  | [] => Returned st
  | x :: l' => st' ←! body st x; for_each body st' l'
  end.

(** ** Data model *)

Definition node_ref := nat.
Definition edge_ref := nat.

Module Node.
Record t := mk {
  name : string;
  ready : bool;
  in_edge : option edge_ref
}.
Definition set_ready (b : bool) (n : t) : t :=
  {| name := name n; ready := b; in_edge := in_edge n |}.
End Node.

Module Edge.
Record t := mk {
  inputs : list node_ref;
  outputs : list node_ref;
  run_time_ms : option Z;
  actual_run_time_ms : Z;
  priority : Z;
  id : Z
}.
Definition set_priority (p : Z) (e : t) : t :=
  {| inputs := inputs e; outputs := outputs e; run_time_ms := run_time_ms e;
     actual_run_time_ms := actual_run_time_ms e; priority := p; id := id e |}.
End Edge.

(** The object store: what each reference currently points to. *)
Record Store := mkStore {
  node_at : node_ref → Node.t;
  edge_at : edge_ref → Edge.t
}.

Definition write_ready (s : Store) (n : node_ref) (b : bool) : Store :=
  {| node_at := alter (Node.set_ready b) n (node_at s); edge_at := edge_at s |}.

Definition write_priority (s : Store) (e : edge_ref) (p : Z) : Store :=
  {| node_at := node_at s; edge_at := alter (Edge.set_priority p) e (edge_at s) |}.

Definition priority_of (s : Store) (e : edge_ref) : Z := Edge.priority (edge_at s e).
Definition ready_of (s : Store) (n : node_ref) : bool := Node.ready (node_at s n).

(** [Edge.all_inputs_ready]: [all(n.ready for n in inputs)].  The iterable
    of the generator is evaluated at once, and [inputs] is a bare name, not
    [self.inputs]: the call raises for every edge. *)
Definition all_inputs_ready (s : Store) (self : edge_ref) : outcome bool :=
  Raised NameError.

(** Python sequence subscript: negative indices count from the end, anything
    else out of range raises [IndexError] (here [None]). *)
Definition py_getitem {A} (l : list A) (i : Z) : option A :=
  let n := Z.of_nat (length l) in
  if decide (0 ≤ i < n) then l !! Z.to_nat i
  else if decide (- n ≤ i < 0) then l !! Z.to_nat (n + i)
  else None.

(** ** Runtime estimator *)

Definition available_run_times (s : Store) (edges : list edge_ref) : list Z :=
  omap (λ e, Edge.run_time_ms (edge_at s e)) edges.

Definition p75_index (n : Z) : Z := (n - 1) - (n `div` 4).

Definition p75_runtime (s : Store) (edges : list edge_ref) : outcome Z :=
  let avail := available_run_times s edges in
  if decide (length avail = 0%nat) then Returned 1
  else
    let sorted := merge_sort Z.le avail in
    let n := Z.of_nat (length sorted) in
    let idx := p75_index n in
    match py_getitem sorted idx with
    | Some v => Returned v
    | None => Raised IndexError
    end.

(** ** Priority computer *)

Definition run_time_or_default (default_run_time : Z) (s : Store) (edge : edge_ref) : Z :=
  match Edge.run_time_ms (edge_at s edge) with
  | Some t => t
  | None => default_run_time
  end.

Module Relax.
(** State of the [while] loop of [compute_priority_critical_time]. *)
Record state := mk {
  store : Store;
  work_queue : list edge_ref;          (* deque, left end first *)
  active_edges : gset edge_ref
}.
End Relax.

(** Line 137: [e.priority + run_time_or_default(e_in)]. *)
Definition proposed_time (default_run_time : Z) (s : Store) (e e_in : edge_ref) : Z :=
  priority_of s e + run_time_or_default default_run_time s e_in.

(** Body of [for n in edge.inputs].  [e] is the loop variable left bound by
    the preceding [for e in edges] loop, i.e. the last element of [edges];
    the source reads [e.priority], not [edge.priority].  When the producer
    is not active it is added to the active set and the next statement,
    [work_queue.push(e_in)], raises: a [deque] has no [push]. *)
Definition relax_input (default_run_time : Z) (e : edge_ref)
    (st : Relax.state) (n : node_ref) : outcome Relax.state :=
  let s := Relax.store st in
  match Node.in_edge (node_at s n) with
  | None => Returned st
  | Some e_in =>
      if decide (proposed_time default_run_time s e e_in ≤ priority_of s e_in)
      then Returned st
      else
        let s' := write_priority s e_in (proposed_time default_run_time s e e_in) in
        if decide (e_in ∈ Relax.active_edges st)
        then Returned (Relax.mk s' (Relax.work_queue st) (Relax.active_edges st))
        else Raised AttributeError
  end.

(** One iteration of the [while] loop, entered with a non-empty work queue
    [edge :: rest].  [set.remove] raises [KeyError] on a missing element. *)
Definition relax_iteration (default_run_time : Z) (e : edge_ref)
    (s : Store) (edge : edge_ref) (rest : list edge_ref)
    (active : gset edge_ref) : outcome Relax.state :=
  if decide (edge ∈ active) then
    for_each (relax_input default_run_time e)
      (Relax.mk s rest (active ∖ {[edge]}))
      (Edge.inputs (edge_at s edge))
  else Raised KeyError.

Fixpoint relax (fuel : nat) (default_run_time : Z) (e : edge_ref)
    (st : Relax.state) : outcome Relax.state :=
  match Relax.work_queue st with
  | [] => Returned st
  | edge :: rest =>
      match fuel with
      | O => OutOfFuel
      | S fuel' =>
          st' ←! relax_iteration default_run_time e (Relax.store st) edge rest
                   (Relax.active_edges st);
          relax fuel' default_run_time e st'
      end
  end.

(** [for e in edges: e.priority = run_time_or_default(e)]. *)
Definition init_priorities (default_run_time : Z) (s : Store) (edges : list edge_ref) : Store :=
  foldl (λ s e, write_priority s e (run_time_or_default default_run_time s e)) s edges.

(** [max(e.id for e in edges)]; [max] of an empty sequence raises. *)
Definition max_id (s : Store) (edges : list edge_ref) : option Z :=
  match edges with
  | [] => None
  | e0 :: rest =>
      Some (foldl (λ m e, Z.max m (Edge.id (edge_at s e))) (Edge.id (edge_at s e0)) rest)
  end.

(** The closing loop: [e.priority = e.priority * (max_id + 1) + (max_id - e.id)]. *)
Definition fold_tie_break (m : Z) (s : Store) (edges : list edge_ref) : Store :=
  foldl (λ s e, write_priority s e
                  (priority_of s e * (m + 1) + (m - Edge.id (edge_at s e)))) s edges.

(** The relaxation part of [compute_priority_critical_time] (lines up to the
    end of the [while] loop).  With an empty [edges] no loop body runs, so
    the unbound [e] is never read. *)
Definition relax_all (fuel : nat) (s : Store) (edges : list edge_ref)
    (default_run_time : Z) : outcome Store :=
  let s1 := init_priorities default_run_time s edges in
  match last edges with
  | None => Returned s1
  | Some e =>
      outcome_map Relax.store
        (relax fuel default_run_time e (Relax.mk s1 edges (list_to_set edges)))
  end.

Definition compute_priority_critical_time (fuel : nat) (s : Store)
    (nodes : list node_ref) (edges : list edge_ref) (default_run_time : Z)
    : outcome Store :=
  s2 ←! relax_all fuel s edges default_run_time;
  match max_id s2 edges with
  | None => Raised ValueError
  | Some m => Returned (fold_tie_break m s2 edges)
  end.

Definition priorities (edges : list edge_ref) (s : Store) : list Z :=
  map (priority_of s) edges.

(** ** Ready queue *)

Module EdgePriorityQueue.
(** [__init__]: [self.queue = []]. *)
Definition init : list edge_ref := [].

(** [push]: [heapq.push(self.queue, item)].  The module [heapq] has no
    attribute [push]; the lookup raises before the list is touched. *)
Definition push (queue : list edge_ref) (item : edge_ref) : outcome (list edge_ref) :=
  Raised AttributeError.

(** [pop]: [None] on an empty queue; otherwise [heapq.pop(self.queue)],
    and [heapq] has no attribute [pop]. *)
Definition pop (queue : list edge_ref) : outcome (option edge_ref * list edge_ref) :=
  if decide (length queue = 0%nat) then Returned (None, queue)
  else Raised AttributeError.

(** [empty]: [len(queue) == 0], with [queue] a bare name. *)
Definition empty (queue : list edge_ref) : outcome bool := Raised NameError.
End EdgePriorityQueue.

(** ** Plan *)

Module Plan.
(** The two objects the constructor builds. *)
Record t := mk {
  ready : list edge_ref;                         (* EdgePriorityQueue *)
  waiting_for : gmap node_ref (list edge_ref)    (* defaultdict(list) *)
}.
End Plan.

(** [waiting_for[n].append(e)] on a [defaultdict(list)]. *)
Definition waiting_append (e : edge_ref) (wf : gmap node_ref (list edge_ref))
    (n : node_ref) : gmap node_ref (list edge_ref) :=
  <[n := wf !!! n ++ [e]]> wf.

(** [Plan.__init__]: the constructor fills [waiting_for] and creates the
    queue; it contains no [push].  Both are bound to local names of the
    constructor. *)
Definition Plan_init (s : Store) (nodes : list node_ref) (edges : list edge_ref) : Plan.t :=
  let waiting_for :=
    foldl (λ wf e, foldl (waiting_append e) wf (Edge.inputs (edge_at s e))) ∅ edges in
  Plan.mk EdgePriorityQueue.init waiting_for.

(** [find_work]: [return ready.pop()], with [ready] a bare name. *)
Definition Plan_find_work (s : Store) (self : Plan.t) : outcome (option edge_ref) :=
  Raised NameError.

(** Body of [for n in edge.outputs]: [n.ready = True], then the header of
    the inner loop reads the bare name [waiting_for]. *)
Definition finish_output (self : Plan.t) (s : Store) (n : node_ref) : outcome Store :=
  let s' := write_ready s n true in
  Raised NameError.

Definition Plan_edge_finished (s : Store) (self : Plan.t) (edge : edge_ref) : outcome Store :=
  for_each (finish_output self) s (Edge.outputs (edge_at s edge)).

(** ** Execution simulator *)

Definition getitem {A} (l : list A) (i : nat) : outcome A :=
  match l !! i with
  | Some x => Returned x
  | None => Raised IndexError
  end.

Definition setitem {A} (l : list A) (i : nat) (x : A) : outcome (list A) :=
  if decide (i < length l)%nat then Returned (<[i := x]> l) else Raised IndexError.

Module Exec.
(** Local state of [Plan.execute] together with the objects it mutates.
    [start_times] is kept as the sequence of writes [start_times[e] = t]
    in program order; the dictionary is [dict_of_writes] of it. *)
Record state := mk {
  store : Store;
  active_edges : list (option edge_ref);
  completion_time : list (option Z);
  current_time : Z;
  start_times : list (edge_ref * Z)
}.

Definition set_current_time (t : Z) (st : state) : state :=
  mk (store st) (active_edges st) (completion_time st) t (start_times st).
End Exec.

(** Python dictionary assignment on an insertion-ordered dictionary. *)
Fixpoint dict_set (k : edge_ref) (v : Z) (d : list (edge_ref * Z)) : list (edge_ref * Z) :=
  match d with
  | [] => [(k, v)]
  | (k', v') :: d' => if decide (k' = k) then (k, v) :: d' else (k', v') :: dict_set k v d'
  end.

Definition dict_of_writes (ws : list (edge_ref * Z)) : list (edge_ref * Z) :=
  foldl (λ d kv, dict_set kv.1 kv.2 d) [] ws.

(** Line 73: [sorted(set(completion_time))].  The set holds every value
    once; sorting it compares [None] with an integer, and raises, as soon
    as it holds both. *)
Definition ordered_times (completion_time : list (option Z)) : outcome (list (option Z)) :=
  let times := omap id completion_time in
  if decide (None ∈ completion_time) then
    if decide (times = []) then Returned [None] else Raised TypeError
  else Returned (Some <$> merge_sort Z.le (remove_dups times)).

(** [for i in range(n_jobs)] of the assign step.  On the first idle slot
    line 78 reads the bare name [ready]; lines 79 to 83 are never
    reached. *)
Fixpoint assign_jobs (slots : list nat) (st : Exec.state) : outcome Exec.state :=
  match slots with
  | [] => Returned st
  | i :: slots' =>
      a ←! getitem (Exec.active_edges st) i;
      match a with
      | Some _ => assign_jobs slots' st
      | None => Raised NameError
      end
  end.

(** [min(t for t in completion_time if t is not None)]. *)
Definition min_completion (completion_time : list (option Z)) : outcome Z :=
  match omap id completion_time with
  | [] => Raised ValueError
  | t :: ts => Returned (foldl Z.min t ts)
  end.

(** [for i in range(n_jobs)] of the completion step. *)
Fixpoint complete_jobs (self : Plan.t) (slots : list nat) (st : Exec.state)
    : outcome Exec.state :=
  match slots with
  | [] => Returned st
  | i :: slots' =>
      c ←! getitem (Exec.completion_time st) i;
      if decide (c = Some (Exec.current_time st)) then
        a ←! getitem (Exec.active_edges st) i;
        match a with
        | None => Raised AttributeError
        | Some edge =>
            s' ←! Plan_edge_finished (Exec.store st) self edge;
            active' ←! setitem (Exec.active_edges st) i None;
            completion' ←! setitem (Exec.completion_time st) i None;
            complete_jobs self slots'
              (Exec.mk s' active' completion' (Exec.current_time st)
                 (Exec.start_times st))
        end
      else complete_jobs self slots' st
  end.

Inductive loop_exit (A : Type) : Type :=
| Continue (a : A)
| Break (a : A).
Arguments Continue {A} a.
Arguments Break {A} a.

(** One pass through the body of [while True]. *)
Definition execute_iteration (self : Plan.t) (n_jobs : Z) (st : Exec.state)
    : outcome (loop_exit Exec.state) :=
  _ ←! ordered_times (Exec.completion_time st);
  let slots := seq 0 (Z.to_nat n_jobs) in
  st1 ←! assign_jobs slots st;
  if forallb (λ e, bool_decide (e = None)) (Exec.active_edges st1)
  then Returned (Break st1)
  else
    t ←! min_completion (Exec.completion_time st1);
    st2 ←! complete_jobs self slots (Exec.set_current_time t st1);
    Returned (Continue st2).

Fixpoint execute_loop (fuel : nat) (self : Plan.t) (n_jobs : Z) (st : Exec.state)
    : outcome Exec.state :=
  match fuel with
  | O => OutOfFuel
  | S fuel' =>
      r ←! execute_iteration self n_jobs st;
      match r with
      | Break st' => Returned st'
      | Continue st' => execute_loop fuel' self n_jobs st'
      end
  end.

(** Lines 67 to 70; [[None] * n_jobs] is empty for [n_jobs <= 0]. *)
Definition execute_start (s : Store) (n_jobs : Z) : Exec.state :=
  Exec.mk s (replicate (Z.to_nat n_jobs) None) (replicate (Z.to_nat n_jobs) None) 0 [].

Definition Plan_execute (fuel : nat) (s : Store) (self : Plan.t) (n_jobs : Z)
    : outcome (list (edge_ref * Z)) :=
  outcome_map (λ st, dict_of_writes (Exec.start_times st))
    (execute_loop fuel self n_jobs (execute_start s n_jobs)).

(** ** Scratch graphs *)

Definition mk_store (ns : list Node.t) (es : list Edge.t) : Store :=
  {| node_at := λ n, default (Node.mk "" false None) (ns !! n);
     edge_at := λ e, default (Edge.mk [] [] None 0 0 0) (es !! e) |}.

(** The chain A -> B -> C: edge 0 produces node 0, edge 1 consumes node 0
    and produces node 1, edge 2 consumes node 1. *)
Definition chain_store : Store :=
  mk_store
    [ Node.mk "a.out" false (Some 0%nat); Node.mk "b.out" false (Some 1%nat) ]
    [ Edge.mk [] [0%nat] (Some 10) 10 0 0;
      Edge.mk [0%nat] [1%nat] (Some 20) 20 0 1;
      Edge.mk [1%nat] [] (Some 30) 30 0 2 ].
Definition chain_edges : list edge_ref := [0; 1; 2]%nat.

(** The same chain listed from the consumer end: C, B, A. *)
Definition chain_edges_rev : list edge_ref := [2; 1; 0]%nat.

(** A producer with a long runtime, listed after its consumer: edge 0
    consumes node 0, which edge 1 produces. *)
Definition fanin_store : Store :=
  mk_store
    [ Node.mk "l.out" false (Some 1%nat) ]
    [ Edge.mk [0%nat] [] (Some 1) 1 0 0;
      Edge.mk [] [0%nat] (Some 10) 10 0 1 ].
Definition fanin_edges : list edge_ref := [0; 1]%nat.


(** A single edge without inputs. *)
Definition source_store : Store :=
  mk_store [ Node.mk "a.out" false (Some 0%nat) ] [ Edge.mk [] [0%nat] (Some 7) 7 0 0 ].

(** Four edges with historical runtimes 5, 10, 15, 20. *)
Definition quartet_store : Store :=
  mk_store []
    [ Edge.mk [] [] (Some 5) 5 0 0; Edge.mk [] [] (Some 10) 10 0 1;
      Edge.mk [] [] (Some 15) 15 0 2; Edge.mk [] [] (Some 20) 20 0 3 ].
Definition quartet_edges : list edge_ref := [0; 1; 2; 3]%nat.


(** ** Notions of the specification *)

(** The producing edges of the inputs of [e]. *)
Definition producers (s : Store) (e : edge_ref) : list edge_ref :=
  omap (λ n, Node.in_edge (node_at s n)) (Edge.inputs (edge_at s e)).



(** The edges of [edges] that consume an output of [e]. *)
Definition consumers (s : Store) (edges : list edge_ref) (e : edge_ref) : list edge_ref :=
  filter (λ c, e ∈ producers s c) edges.

(** Critical time as the glossary defines it: the longest chain of
    cumulative durations from an edge through its downstream consumers,
    explored to the given depth. *)
Fixpoint critical_time (depth : nat) (default_run_time : Z) (s : Store)
    (edges : list edge_ref) (e : edge_ref) : Z :=
  run_time_or_default default_run_time s e
  + match depth with
    | O => 0
    | S depth' =>
        foldr Z.max 0
          (map (critical_time depth' default_run_time s edges) (consumers s edges e))
    end.

(** The priority the specification assigns: critical time folded with the
    id tie-break, [M = max_id + 1]. *)
Definition spec_priority (default_run_time : Z) (s : Store)
    (edges : list edge_ref) (e : edge_ref) : option Z :=
  m ← max_id s edges;
  Some (critical_time (length edges) default_run_time s edges e * (m + 1)
        + (m - Edge.id (edge_at s e))).

(** The relaxation step in the specification's words: the candidate is
    built from the priority of the edge just removed from the worklist,
    and a producer that is not active is added to the worklist and the
    active set. *)
Definition relax_input_spec (default_run_time : Z) (edge : edge_ref)
    (st : Relax.state) (n : node_ref) : Relax.state :=
  let s := Relax.store st in
  match Node.in_edge (node_at s n) with
  | None => st
  | Some p =>
      let candidate := priority_of s edge + run_time_or_default default_run_time s p in
      if decide (candidate ≤ priority_of s p) then st
      else
        let s' := write_priority s p candidate in
        if decide (p ∈ Relax.active_edges st)
        then Relax.mk s' (Relax.work_queue st) (Relax.active_edges st)
        else Relax.mk s' (Relax.work_queue st ++ [p]) ({[p]} ∪ Relax.active_edges st)
  end.

Definition relax_iteration_spec (default_run_time : Z) (s : Store)
    (edge : edge_ref) (rest : list edge_ref) (active : gset edge_ref) : Relax.state :=
  foldl (relax_input_spec default_run_time edge)
    (Relax.mk s rest (active ∖ {[edge]})) (Edge.inputs (edge_at s edge)).

(** The seeding the specification asks of the constructor: every edge
    without inputs is put into the ready queue. *)
Definition seed_ready_spec (s : Store) (edges : list edge_ref) (p : Plan.t) : Plan.t :=
  Plan.mk
    (foldl (λ q e, if decide (Edge.inputs (edge_at s e) = []) then q ++ [e] else q)
       (Plan.ready p) edges)
    (Plan.waiting_for p).

(** [edge_finished] in the specification's words: every output node is
    marked ready, and every edge waiting for it whose inputs are all ready
    is put into the ready queue. *)
Definition all_inputs_ready_spec (s : Store) (e : edge_ref) : bool :=
  forallb (ready_of s) (Edge.inputs (edge_at s e)).

Definition edge_finished_spec (sp : Store * Plan.t) (edge : edge_ref) : Store * Plan.t :=
  foldl
    (λ sp n,
       let s' := write_ready sp.1 n true in
       (s', Plan.mk
              (foldl (λ q e, if all_inputs_ready_spec s' e then q ++ [e] else q)
                 (Plan.ready sp.2) (Plan.waiting_for sp.2 !!! n))
              (Plan.waiting_for sp.2)))
    sp (Edge.outputs (edge_at sp.1 edge)).

Definition sum_run_times (default_run_time : Z) (s : Store) (edges : list edge_ref) : Z :=
  foldr Z.add 0 (map (run_time_or_default default_run_time s) edges).

(** ** Invariants *)

(** Two stores describe the same graph: they differ at most in the
    [priority] and [ready] fields. *)
Definition same_graph (s s' : Store) : Prop :=
  (∀ n, Node.in_edge (node_at s' n) = Node.in_edge (node_at s n))
  ∧ (∀ e, Edge.inputs (edge_at s' e) = Edge.inputs (edge_at s e))
  ∧ (∀ e, Edge.outputs (edge_at s' e) = Edge.outputs (edge_at s e))
  ∧ (∀ e, Edge.run_time_ms (edge_at s' e) = Edge.run_time_ms (edge_at s e))
  ∧ (∀ e, Edge.actual_run_time_ms (edge_at s' e) = Edge.actual_run_time_ms (edge_at s e))
  ∧ (∀ e, Edge.id (edge_at s' e) = Edge.id (edge_at s e)).








(** * Theorems *)

(** ** Runtime estimator *)

Lemma p75_index_bounds (n : Z) : 1 ≤ n → 0 ≤ p75_index n < n.
Proof.
  unfold p75_index. intros Hn.
  pose proof (Z.div_lt n 4 ltac:(lia) ltac:(lia)).
  pose proof (Z.div_pos n 4 ltac:(lia) ltac:(lia)).
  lia.
Qed.

Lemma py_getitem_in_range {A} (l : list A) (i : Z) :
  0 ≤ i < Z.of_nat (length l) → py_getitem l i = l !! Z.to_nat i.
Proof. intros Hi. unfold py_getitem. rewrite decide_True by done. done. Qed.

Lemma merge_sort_length (l : list Z) : length (merge_sort Z.le l) = length l.
Proof. apply Permutation_length, merge_sort_Permutation. Qed.

Lemma p75_runtime_nonempty (s : Store) (edges : list edge_ref) :
  available_run_times s edges ≠ [] →
  ∃ v, merge_sort Z.le (available_run_times s edges)
         !! Z.to_nat (p75_index (Z.of_nat (length (available_run_times s edges)))) = Some v
       ∧ p75_runtime s edges = Returned v.
Proof.
  intros Hne. unfold p75_runtime.
  set (avail := available_run_times s edges) in *.
  assert (Hlen : (0 < length avail)%nat) by (destruct avail; [done | simpl; lia]).
  rewrite decide_False by lia.
  rewrite merge_sort_length.
  pose proof (p75_index_bounds (Z.of_nat (length avail)) ltac:(lia)) as Hb.
  rewrite py_getitem_in_range by (rewrite merge_sort_length; lia).
  destruct (lookup_lt_is_Some_2 (merge_sort Z.le avail)
              (Z.to_nat (p75_index (Z.of_nat (length avail))))) as [v Hv].
  { rewrite merge_sort_length. lia. }
  exists v. by rewrite Hv.
Qed.

(** C7: [p75_runtime] collects the estimated runtimes that are present;
    with none it returns 1, otherwise it returns the element at zero-based
    rank (n-1) - floor(n/4) of the ascending sort of the collected values.
    For the estimates 5, 10, 15, 20 the result is 15. *)
Theorem p75_runtime_correct (s : Store) (edges : list edge_ref) :
  (∀ v, v ∈ available_run_times s edges
        ↔ ∃ e, e ∈ edges ∧ Edge.run_time_ms (edge_at s e) = Some v)
  ∧ match available_run_times s edges with
    | [] => p75_runtime s edges = Returned 1
    | _ :: _ =>
        ∃ sorted v,
          Sorted Z.le sorted
          ∧ sorted ≡ₚ available_run_times s edges
          ∧ sorted !! Z.to_nat (p75_index (Z.of_nat (length sorted))) = Some v
          ∧ p75_runtime s edges = Returned v
    end
  ∧ available_run_times quartet_store quartet_edges = [5; 10; 15; 20]
  ∧ p75_runtime quartet_store quartet_edges = Returned 15.
Proof.
  split; [| split; [| split]].
  - intros v. unfold available_run_times. rewrite list_elem_of_omap. naive_solver.
  - destruct (available_run_times s edges) as [| a l] eqn:Hav.
    + unfold p75_runtime. by rewrite Hav.
    + destruct (p75_runtime_nonempty s edges) as (v & Hv & Hr); [by rewrite Hav |].
      rewrite Hav in Hv. exists (merge_sort Z.le (a :: l)), v.
      split; [apply (Sorted_merge_sort Z.le) |].
      split; [apply merge_sort_Permutation |].
      split; [| done].
      by rewrite merge_sort_length.
  - reflexivity.
  - vm_compute. reflexivity.
Qed.

(** C10: for a non-empty collection of n estimated runtimes the index
    (n-1) - n//4 lies in [0, n), so the subscript does not raise and the
    value returned is one of the collected runtimes. *)
Theorem p75_index_in_bounds (s : Store) (edges : list edge_ref) :
  available_run_times s edges ≠ [] →
  let n := Z.of_nat (length (available_run_times s edges)) in
  0 ≤ p75_index n < n
  ∧ ∃ v, p75_runtime s edges = Returned v ∧ v ∈ available_run_times s edges.
Proof.
  intros Hne n. split.
  - apply p75_index_bounds. subst n. destruct (available_run_times s edges); [done | simpl; lia].
  - destruct (p75_runtime_nonempty s edges Hne) as (v & Hv & Hr).
    exists v. split; [done |].
    rewrite <- (merge_sort_Permutation Z.le). by eapply list_elem_of_lookup_2.
Qed.

Lemma p75_index_in_bounds_witness :
  available_run_times quartet_store quartet_edges ≠ []
  ∧ 0 ≤ p75_index 4 < 4
  ∧ ∃ v, p75_runtime quartet_store quartet_edges = Returned v
         ∧ v ∈ available_run_times quartet_store quartet_edges.
Proof.
  assert (H : available_run_times quartet_store quartet_edges ≠ []) by (vm_compute; discriminate).
  split; [exact H |].
  exact (p75_index_in_bounds quartet_store quartet_edges H).
Defined.


(** ** Priority computer on the scratch graphs *)

Example chain_relaxed :
  outcome_map (priorities chain_edges) (relax_all 10 chain_store chain_edges_rev 1)
  = Returned [20; 30; 30].
Proof. vm_compute. reflexivity. Qed.

Example chain_critical_times :
  map (critical_time 3 1 chain_store chain_edges) chain_edges = [60; 50; 30].
Proof. vm_compute. reflexivity. Qed.

(** C1: on the chain A -> B -> C, the iteration that removes B computes the
    candidate for A from the priority of C, the last edge of the list (40),
    where the claim takes the priority of the removed edge B (30); having
    stored it, the iteration raises at the re-enqueue of A.  With the chain
    listed C, B, A the iteration that removes C runs to its end: it leaves B
    with priority(A) + 20 = 30, where the claim gives priority(C) + 20 =
    50. *)
Theorem relax_candidate_reads_last_edge :
  let s := init_priorities 1 chain_store chain_edges in
  priorities chain_edges s = [10; 20; 30]
  ∧ proposed_time 1 s 2%nat 0%nat = 40
  ∧ proposed_time 1 s 1%nat 0%nat = 30
  ∧ relax_iteration 1 2%nat s 1%nat [2%nat] {[1%nat; 2%nat]} = Raised AttributeError
  ∧ priorities chain_edges
      (Relax.store (relax_iteration_spec 1 s 1%nat [2%nat] {[1%nat; 2%nat]}))
    = [30; 20; 30]
  ∧ outcome_map (λ st, priorities chain_edges (Relax.store st))
      (relax_iteration 1 0%nat s 2%nat [1%nat; 0%nat] {[0%nat; 1%nat; 2%nat]})
    = Returned [10; 30; 30]
  ∧ priorities chain_edges
      (Relax.store (relax_iteration_spec 1 s 2%nat [1%nat; 0%nat]
                      {[0%nat; 1%nat; 2%nat]}))
    = [10; 50; 30].
Proof. vm_compute. done. Qed.

(** C2: with the chain listed A, B, C the priority computation raises at
    the first re-enqueue and there are no final priorities.  Listed C, B, A
    it finishes, and with M = 3 edge A ends with priority 62 although its
    critical time 60 calls for 60 * 3 + 2 = 182; B (critical time 50) and C
    (critical time 30) both outrank A. *)
Theorem chain_final_priorities :
  compute_priority_critical_time 10 chain_store [0; 1]%nat chain_edges 1
  = Raised AttributeError
  ∧ outcome_map (priorities chain_edges)
      (compute_priority_critical_time 10 chain_store [0; 1]%nat chain_edges_rev 1)
    = Returned [62; 91; 90]
  ∧ map (spec_priority 1 chain_store chain_edges_rev) chain_edges
    = [Some 182; Some 151; Some 90]
  ∧ map (spec_priority 1 chain_store chain_edges) chain_edges
    = [Some 182; Some 151; Some 90].
Proof. vm_compute. done. Qed.

(** C8: on an acyclic two-edge graph the relaxation ends, yet it leaves the
    producer with priority 20, above the sum 11 of all runtimes. *)
Theorem fanin_priority_exceeds_sum :
  outcome_map (priorities fanin_edges) (relax_all 5 fanin_store fanin_edges 1)
  = Returned [1; 20]
  ∧ sum_run_times 1 fanin_store fanin_edges = 11
  ∧ map (critical_time 2 1 fanin_store fanin_edges) fanin_edges = [1; 11].
Proof. vm_compute. done. Qed.

(** ** Plan construction *)

Lemma Plan_init_ready (s : Store) (nodes : list node_ref) (edges : list edge_ref) :
  Plan.ready (Plan_init s nodes edges) = [].
Proof. reflexivity. Qed.

(** C4: the constructor leaves the ready queue empty, whatever the graph;
    in particular the edge of [source_store], which has no inputs, is not
    in it, where the seeding of the specification would have put it. *)
Theorem Plan_init_does_not_seed (s : Store) (nodes : list node_ref)
    (edges : list edge_ref) :
  Plan.ready (Plan_init s nodes edges) = []
  ∧ Edge.inputs (edge_at source_store 0%nat) = []
  ∧ Plan.ready (Plan_init source_store [0%nat] [0%nat]) = []
  ∧ Plan.ready (seed_ready_spec source_store [0%nat]
                  (Plan_init source_store [0%nat] [0%nat])) = [0%nat].
Proof. split; [apply Plan_init_ready | by vm_compute]. Qed.

(** ** Execution simulator *)

Lemma omap_replicate_None (n : nat) : omap id (replicate n (@None Z)) = [].
Proof. induction n as [| n IH]; [done | exact IH]. Qed.

Lemma ordered_times_idle (n : nat) :
  ∃ l, ordered_times (replicate n None) = Returned l.
Proof.
  unfold ordered_times. rewrite omap_replicate_None.
  destruct (decide (None ∈ replicate n None)); [| by eexists].
  rewrite decide_True by done. by eexists.
Qed.

(** The first pass of [execute]: without slots the loop is left at once;
    with one or more, slot 0 is idle and line 78 raises. *)
Lemma execute_first_pass (self : Plan.t) (s : Store) (n_jobs : Z) :
  execute_iteration self n_jobs (execute_start s n_jobs)
  = if decide (n_jobs ≤ 0) then Returned (Break (execute_start s n_jobs))
    else Raised NameError.
Proof.
  unfold execute_iteration, execute_start. simpl.
  destruct (ordered_times_idle (Z.to_nat n_jobs)) as [l ->]. simpl.
  destruct (Z.to_nat n_jobs) as [| m] eqn:Hn.
  - rewrite decide_True by lia. reflexivity.
  - rewrite decide_False by lia. reflexivity.
Qed.


Lemma Plan_execute_outcome (fuel : nat) (s : Store) (self : Plan.t) (n_jobs : Z) :
  Plan_execute (S fuel) s self n_jobs
  = if decide (n_jobs ≤ 0) then Returned [] else Raised NameError.
Proof.
  unfold Plan_execute. simpl. rewrite execute_first_pass.
  by destruct (decide (n_jobs ≤ 0)).
Qed.

(** C6: on the chain the scenario never yields A:0, B:10, C:30.  The
    priority computation raises at the first re-enqueue; the constructor
    leaves the queue empty; and [execute(1)] raises at line 78, also after
    a priority computation that finishes (the chain listed C, B, A). *)
Theorem chain_execute_raises :
  (∀ fuel,
     (s ←! compute_priority_critical_time fuel chain_store [0; 1]%nat chain_edges 1;
      Plan_execute fuel s (Plan_init s [0; 1]%nat chain_edges) 1)
     ≠ Returned [(0%nat, 0); (1%nat, 10); (2%nat, 30)])
  ∧ compute_priority_critical_time 10 chain_store [0; 1]%nat chain_edges 1
    = Raised AttributeError
  ∧ Plan.ready (Plan_init chain_store [0; 1]%nat chain_edges) = []
  ∧ Plan_execute 10 chain_store (Plan_init chain_store [0; 1]%nat chain_edges) 1
    = Raised NameError
  ∧ (s ←! compute_priority_critical_time 10 chain_store [0; 1]%nat chain_edges_rev 1;
     Plan_execute 10 s (Plan_init s [0; 1]%nat chain_edges_rev) 1)
    = Raised NameError.
Proof.
  split; [| by vm_compute].
  intros fuel.
  destruct (compute_priority_critical_time fuel chain_store [0; 1]%nat chain_edges 1)
    as [s | x |]; simpl; [| done | done].
  destruct fuel as [| fuel]; [done |].
  by rewrite Plan_execute_outcome.
Qed.


(** ** Relaxation *)

Lemma same_graph_refl (s : Store) : same_graph s s.
Proof. by repeat split. Qed.

Lemma same_graph_trans (s1 s2 s3 : Store) :
  same_graph s1 s2 → same_graph s2 s3 → same_graph s1 s3.
Proof.
  intros (A1 & A2 & A3 & A4 & A5 & A6) (B1 & B2 & B3 & B4 & B5 & B6).
  repeat split; intros; congruence.
Qed.

Lemma edge_at_write_priority (s : Store) (e x : edge_ref) (p : Z) :
  edge_at (write_priority s e p) x
  = if decide (e = x) then Edge.set_priority p (edge_at s e) else edge_at s x.
Proof. unfold write_priority; simpl. unfold alter, fn_alter. by destruct (decide (e = x)). Qed.

Lemma same_graph_write_priority (s : Store) (e : edge_ref) (p : Z) :
  same_graph s (write_priority s e p).
Proof.
  repeat split; intros x; try done;
    rewrite edge_at_write_priority; destruct (decide (e = x)); by subst.
Qed.

Lemma priority_of_write_priority (s : Store) (e x : edge_ref) (p : Z) :
  priority_of (write_priority s e p) x = if decide (e = x) then p else priority_of s x.
Proof.
  unfold priority_of. rewrite edge_at_write_priority. by destruct (decide (e = x)).
Qed.


Lemma same_graph_init_priorities (d : Z) (s : Store) (edges : list edge_ref) :
  same_graph s (init_priorities d s edges).
Proof.
  unfold init_priorities. revert s. induction edges as [| e l IH]; intros s; simpl.
  - apply same_graph_refl.
  - eapply same_graph_trans; [apply same_graph_write_priority | apply IH].
Qed.



Section relaxation.
Variables (d : Z) (e : edge_ref).

(** A step that returns leaves the worklist and the active set as they
    were: nothing is ever enqueued. *)
Lemma relax_input_returned (st st' : Relax.state) (n : node_ref) :
  relax_input d e st n = Returned st' →
  Relax.work_queue st' = Relax.work_queue st
  ∧ Relax.active_edges st' = Relax.active_edges st
  ∧ same_graph (Relax.store st) (Relax.store st')
  ∧ ∀ x, priority_of (Relax.store st) x ≤ priority_of (Relax.store st') x.
Proof.
  unfold relax_input.
  assert (Hsame : Returned st = Returned st' →
            Relax.work_queue st' = Relax.work_queue st
            ∧ Relax.active_edges st' = Relax.active_edges st
            ∧ same_graph (Relax.store st) (Relax.store st')
            ∧ ∀ x, priority_of (Relax.store st) x ≤ priority_of (Relax.store st') x).
  { intros [= <-]. split; [done |]. split; [done |].
    split; [apply same_graph_refl | intros x; lia]. }
  destruct (Node.in_edge _) as [e_in |]; [| done].
  destruct (decide (_ ≤ _)) as [Hle | Hgt]; [done |].
  destruct (decide (e_in ∈ _)); [| done].
  intros [= <-]. simpl. split; [done |]. split; [done |].
  split; [apply same_graph_write_priority |].
  intros x. rewrite priority_of_write_priority. case_decide; subst; lia.
Qed.




Lemma relax_inputs_returned (l : list node_ref) (st st' : Relax.state) :
  for_each (relax_input d e) st l = Returned st' →
  Relax.work_queue st' = Relax.work_queue st
  ∧ Relax.active_edges st' = Relax.active_edges st
  ∧ same_graph (Relax.store st) (Relax.store st')
  ∧ ∀ x, priority_of (Relax.store st) x ≤ priority_of (Relax.store st') x.
Proof.
  revert st. induction l as [| n l IH]; intros st; simpl.
  - intros [= <-]. split; [done |]. split; [done |].
    split; [apply same_graph_refl | intros x; lia].
  - destruct (relax_input d e st n) as [st1 | |] eqn:H1; simpl; [| done | done].
    apply relax_input_returned in H1 as (Hq1 & Ha1 & Hsg1 & Hm1).
    intros (Hq & Ha & Hsg & Hm)%IH.
    split; [congruence |]. split; [congruence |].
    split; [by eapply same_graph_trans |].
    intros x. specialize (Hm1 x). specialize (Hm x). lia.
Qed.



Lemma relax_returned (fuel : nat) (st st' : Relax.state) :
  relax fuel d e st = Returned st' →
  same_graph (Relax.store st) (Relax.store st')
  ∧ ∀ x, priority_of (Relax.store st) x ≤ priority_of (Relax.store st') x.
Proof.
  revert st. induction fuel as [| fuel IH]; intros [s q a]; simpl;
    destruct q as [| edge rest]; try done;
    try (intros [= <-]; split; [apply same_graph_refl | intros x; simpl; lia]).
  unfold relax_iteration. case_decide; [| done].
  destruct (for_each _ _ _) as [st1 | |] eqn:H1; simpl; [| done | done].
  apply relax_inputs_returned in H1 as (_ & _ & Hsg1 & Hm1). simpl in *.
  intros (Hsg & Hm)%IH. split; [by eapply same_graph_trans |].
  intros x. specialize (Hm1 x). specialize (Hm x). lia.
Qed.




End relaxation.


Lemma relax_all_same_graph (fuel : nat) (s s2 : Store) (edges : list edge_ref) (d : Z) :
  relax_all fuel s edges d = Returned s2 → same_graph s s2.
Proof.
  unfold relax_all.
  pose proof (same_graph_init_priorities d s edges) as Hsg0.
  destruct (last edges) as [e |]; [| by intros [= <-]].
  unfold outcome_map.
  destruct (relax fuel d e _) as [st' | |] eqn:Hr; simpl; [| done | done].
  intros [= <-]. eapply same_graph_trans; [done |].
  by apply (relax_returned d e fuel) in Hr as [Hsg _].
Qed.

(** ** The tie-break fold *)

Lemma fold_tie_break_same_graph (m : Z) (edges : list edge_ref) (s : Store) :
  same_graph s (fold_tie_break m s edges).
Proof.
  unfold fold_tie_break. revert s. induction edges as [| e l IH]; intros s; simpl.
  - apply same_graph_refl.
  - eapply same_graph_trans; [apply same_graph_write_priority | apply IH].
Qed.

Lemma fold_tie_break_other (m : Z) (edges : list edge_ref) (s : Store) (x : edge_ref) :
  x ∉ edges → priority_of (fold_tie_break m s edges) x = priority_of s x.
Proof.
  unfold fold_tie_break. revert s. induction edges as [| e l IH]; intros s Hx; simpl; [done |].
  apply not_elem_of_cons in Hx as [Hne Hx].
  rewrite IH by done. rewrite priority_of_write_priority. by rewrite decide_False.
Qed.

Lemma fold_tie_break_priority (m : Z) (edges : list edge_ref) (s : Store) (x : edge_ref) :
  NoDup edges → x ∈ edges →
  priority_of (fold_tie_break m s edges) x
  = priority_of s x * (m + 1) + (m - Edge.id (edge_at s x)).
Proof.
  revert s. induction edges as [| e l IH]; intros s Hnd Hx.
  - by apply elem_of_nil in Hx.
  - apply NoDup_cons in Hnd as [He Hnd].
    change (fold_tie_break m s (e :: l))
      with (fold_tie_break m
              (write_priority s e
                 (priority_of s e * (m + 1) + (m - Edge.id (edge_at s e)))) l).
    apply elem_of_cons in Hx as [-> | Hx].
    + rewrite fold_tie_break_other by done.
      rewrite priority_of_write_priority. by rewrite decide_True.
    + rewrite IH by done.
      assert (e ≠ x) by (by intros ->).
      rewrite priority_of_write_priority, decide_False by done.
      destruct (same_graph_write_priority s e
                  (priority_of s e * (m + 1) + (m - Edge.id (edge_at s e))))
        as (_ & _ & _ & _ & _ & Hid).
      by rewrite Hid.
Qed.

Lemma foldl_max_id_upper (s : Store) (l : list edge_ref) (a : Z) :
  a ≤ foldl (λ m e, Z.max m (Edge.id (edge_at s e))) a l
  ∧ ∀ y, y ∈ l →
      Edge.id (edge_at s y) ≤ foldl (λ m e, Z.max m (Edge.id (edge_at s e))) a l.
Proof.
  revert a. induction l as [| e l IH]; intros a; simpl.
  - split; [lia | intros y Hy; by apply elem_of_nil in Hy].
  - destruct (IH (Z.max a (Edge.id (edge_at s e)))) as [H1 H2]. split; [lia |].
    intros y [-> | Hy]%elem_of_cons; [lia | by apply H2].
Qed.

Lemma max_id_upper (s : Store) (edges : list edge_ref) (m : Z) (x : edge_ref) :
  max_id s edges = Some m → x ∈ edges → Edge.id (edge_at s x) ≤ m.
Proof.
  destruct edges as [| e0 rest]; [done |]. simpl. intros [= <-] Hx.
  destruct (foldl_max_id_upper s rest (Edge.id (edge_at s e0))) as [H1 H2].
  apply elem_of_cons in Hx as [-> | Hx]; [done | by apply H2].
Qed.

Lemma max_id_same_graph (s s' : Store) (edges : list edge_ref) :
  same_graph s s' → max_id s' edges = max_id s edges.
Proof.
  intros (_ & _ & _ & _ & _ & Hid). destruct edges as [| e0 rest]; [done |]. simpl.
  rewrite Hid. f_equal. generalize (Edge.id (edge_at s e0)).
  induction rest as [| e l IH]; intros a; simpl; [done |]. by rewrite Hid, IH.
Qed.

Lemma tie_break_order (m c1 c2 i1 i2 : Z) :
  0 ≤ i1 ≤ m → 0 ≤ i2 ≤ m →
  c1 * (m + 1) + (m - i1) < c2 * (m + 1) + (m - i2)
  ↔ c1 < c2 ∨ (c1 = c2 ∧ i2 < i1).
Proof. intros H1 H2. split; [| intros [? | [-> ?]]]; nia. Qed.

(** The closing loop as such: once the relaxation has returned, every
    edge's priority is its relaxed priority times [M] plus [M - 1 - id],
    and for non-negative ids the result compares edges by relaxed priority
    first and by smaller id second. *)
Lemma compute_priority_tie_break (fuel : nat) (s s2 : Store) (nodes : list node_ref)
    (edges : list edge_ref) (d : Z) :
  NoDup edges → edges ≠ [] →
  relax_all fuel s edges d = Returned s2 →
  ∃ m s3,
    max_id s edges = Some m
    ∧ compute_priority_critical_time fuel s nodes edges d = Returned s3
    ∧ (∀ x, x ∈ edges →
         priority_of s3 x
         = priority_of s2 x * (m + 1) + ((m + 1) - 1 - Edge.id (edge_at s x)))
    ∧ (∀ x y, x ∈ edges → y ∈ edges →
         0 ≤ Edge.id (edge_at s x) → 0 ≤ Edge.id (edge_at s y) →
         (priority_of s3 x < priority_of s3 y
          ↔ priority_of s2 x < priority_of s2 y
            ∨ (priority_of s2 x = priority_of s2 y
               ∧ Edge.id (edge_at s y) < Edge.id (edge_at s x)))).
Proof.
  intros Hnd Hne Hrelax.
  pose proof (relax_all_same_graph fuel s s2 edges d Hrelax) as Hsg.
  pose proof Hsg as (_ & _ & _ & _ & _ & Hid).
  assert (∃ m, max_id s edges = Some m) as [m Hm]
    by (destruct edges; [done | by eexists]).
  exists m, (fold_tie_break m s2 edges).
  split; [done |].
  unfold compute_priority_critical_time. rewrite Hrelax. simpl.
  rewrite (max_id_same_graph s s2 edges Hsg), Hm.
  split; [done |].
  assert (Hprio : ∀ x, x ∈ edges →
            priority_of (fold_tie_break m s2 edges) x
            = priority_of s2 x * (m + 1) + (m - Edge.id (edge_at s x))).
  { intros x Hx. rewrite fold_tie_break_priority by done. by rewrite Hid. }
  split.
  - intros x Hx. rewrite Hprio by done. lia.
  - intros x y Hx Hy H0x H0y. rewrite !Hprio by done.
    apply tie_break_order; split; try done; by eapply max_id_upper.
Qed.

(** ** Cycles *)






(** ** Readiness tracking *)

Lemma finish_outputs_raise (self : Plan.t) (s : Store) (outputs : list node_ref) :
  for_each (finish_output self) s outputs
  = if decide (outputs = []) then Returned s else Raised NameError.
Proof. by destruct outputs. Qed.

(** C5: [edge_finished] returns only for an edge without outputs, and then
    does nothing; for every other edge it raises at line 62, having set the
    flag of the first output, and no edge is put into the ready queue.
    [all_inputs_ready] raises for every edge.  On the chain, finishing A
    raises, where the claim has it mark node a ready and put B into the
    queue. *)
Theorem edge_finished_raises (s : Store) (self : Plan.t) (edge : edge_ref) :
  Plan_edge_finished s self edge
  = (if decide (Edge.outputs (edge_at s edge) = []) then Returned s
     else Raised NameError)
  ∧ all_inputs_ready s edge = Raised NameError
  ∧ Plan_edge_finished chain_store (Plan_init chain_store [0; 1]%nat chain_edges) 0%nat
    = Raised NameError
  ∧ Plan.ready (edge_finished_spec
                  (chain_store, Plan_init chain_store [0; 1]%nat chain_edges) 0%nat).2
    = [1%nat]
  ∧ ready_of (edge_finished_spec
                (chain_store, Plan_init chain_store [0; 1]%nat chain_edges) 0%nat).1
      0%nat
    = true.
Proof.
  split; [apply finish_outputs_raise |]. split; [done |]. by vm_compute.
Qed.

(** * Further properties of the code *)

(** ** Plan construction *)




(** ** The simulator as written *)

(** X4: [execute] never starts an edge, whatever the plan and the graph:
    without slots ([n_jobs <= 0]) it returns the empty mapping after one
    pass, and with one or more slots it raises [NameError] in its first
    pass, at line 78.  [find_work] raises as well. *)
Theorem execute_starts_nothing (fuel : nat) (s : Store) (self : Plan.t) (n_jobs : Z) :
  (n_jobs ≤ 0 → Plan_execute (S fuel) s self n_jobs = Returned [])
  ∧ (1 ≤ n_jobs → Plan_execute (S fuel) s self n_jobs = Raised NameError)
  ∧ Plan_find_work s self = Raised NameError.
Proof.
  rewrite Plan_execute_outcome. split; [| split; [| done]]; intros Hn.
  - by rewrite decide_True.
  - by rewrite decide_False by lia.
Qed.

(** ** Priority computer *)



(** X9: the closing loop turns the priorities [c] it finds into
    [c * M + (M - 1 - id)] with [M = max_id + 1]; for non-negative ids the
    result compares two edges of a duplicate-free list by [c] first and by
    smaller id second, and edges with different ids never end with the same
    priority. *)
Theorem tie_break_total_order (s : Store) (edges : list edge_ref) (m : Z)
    (x y : edge_ref) :
  NoDup edges → max_id s edges = Some m →
  x ∈ edges → y ∈ edges →
  0 ≤ Edge.id (edge_at s x) → 0 ≤ Edge.id (edge_at s y) →
  priority_of (fold_tie_break m s edges) x
  = priority_of s x * (m + 1) + ((m + 1) - 1 - Edge.id (edge_at s x))
  ∧ (priority_of (fold_tie_break m s edges) x < priority_of (fold_tie_break m s edges) y
     ↔ priority_of s x < priority_of s y
       ∨ (priority_of s x = priority_of s y
          ∧ Edge.id (edge_at s y) < Edge.id (edge_at s x)))
  ∧ (Edge.id (edge_at s x) ≠ Edge.id (edge_at s y) →
     priority_of (fold_tie_break m s edges) x ≠ priority_of (fold_tie_break m s edges) y).
Proof.
  intros Hnd Hm Hx Hy H0x H0y.
  rewrite !fold_tie_break_priority by done.
  pose proof (max_id_upper s edges m x Hm Hx).
  pose proof (max_id_upper s edges m y Hm Hy).
  split; [lia |]. split; [by apply tie_break_order |].
  intros Hid Heq.
  pose proof (proj2 (tie_break_order m (priority_of s x) (priority_of s y)
                       (Edge.id (edge_at s x)) (Edge.id (edge_at s y))
                       ltac:(lia) ltac:(lia))) as Hxy.
  pose proof (proj2 (tie_break_order m (priority_of s y) (priority_of s x)
                       (Edge.id (edge_at s y)) (Edge.id (edge_at s x))
                       ltac:(lia) ltac:(lia))) as Hyx.
  destruct (Z.lt_trichotomy (priority_of s x) (priority_of s y)) as [Hlt | [Hpe | Hgt]].
  - specialize (Hxy (or_introl Hlt)). lia.
  - destruct (Z.lt_trichotomy (Edge.id (edge_at s x)) (Edge.id (edge_at s y)))
      as [Hi | [Hi | Hi]]; [| done |].
    + specialize (Hyx (or_intror (conj (eq_sym Hpe) Hi))). lia.
    + specialize (Hxy (or_intror (conj Hpe Hi))). lia.
  - specialize (Hyx (or_introl Hgt)). lia.
Qed.

Lemma tie_break_total_order_witness :
  priority_of (fold_tie_break 2 chain_store chain_edges) 0%nat
  = priority_of chain_store 0%nat * (2 + 1) + ((2 + 1) - 1 - Edge.id (edge_at chain_store 0%nat))
  ∧ (priority_of (fold_tie_break 2 chain_store chain_edges) 0%nat
     < priority_of (fold_tie_break 2 chain_store chain_edges) 1%nat
     ↔ priority_of chain_store 0%nat < priority_of chain_store 1%nat
       ∨ (priority_of chain_store 0%nat = priority_of chain_store 1%nat
          ∧ Edge.id (edge_at chain_store 1%nat) < Edge.id (edge_at chain_store 0%nat)))
  ∧ (Edge.id (edge_at chain_store 0%nat) ≠ Edge.id (edge_at chain_store 1%nat) →
     priority_of (fold_tie_break 2 chain_store chain_edges) 0%nat
     ≠ priority_of (fold_tie_break 2 chain_store chain_edges) 1%nat).
Proof.
  apply (tie_break_total_order chain_store chain_edges 2 0%nat 1%nat).
  - apply (bool_decide_unpack _); vm_compute; exact I.
  - reflexivity.
  - apply (bool_decide_unpack _); vm_compute; exact I.
  - apply (bool_decide_unpack _); vm_compute; exact I.
  - by vm_compute.
  - by vm_compute.
Defined.




(** *** Ill-formed edge lists *)







(** *** What the relaxation computes when the last edge feeds nobody *)

Section leaf.
Variables (d : Z) (s0 : Store) (edges : list edge_ref) (L : edge_ref).



Hypothesis Hclosed : Forall (λ x, Forall (λ p, p ∈ edges) (producers s0 x)) edges.
Hypothesis Hleaf : L ∉ edges ≫= producers s0.

End leaf.



(** ** Runtime estimator *)

Lemma merge_sort_Permutation_eq (l k : list Z) :
  l ≡ₚ k → merge_sort Z.le l = merge_sort Z.le k.
Proof.
  intros Hperm. apply (Sorted_unique Z.le).
  - apply (Sorted_merge_sort Z.le).
  - apply (Sorted_merge_sort Z.le).
  - by rewrite !merge_sort_Permutation.
Qed.

(** X13: the estimate does not depend on the order in which the edges are
    listed. *)
Theorem p75_runtime_order_independent (s : Store) (edges edges' : list edge_ref) :
  edges ≡ₚ edges' → p75_runtime s edges = p75_runtime s edges'.
Proof.
  intros Hperm. unfold p75_runtime, available_run_times.
  assert (Hav : omap (λ e, Edge.run_time_ms (edge_at s e)) edges
                ≡ₚ omap (λ e, Edge.run_time_ms (edge_at s e)) edges')
    by (by rewrite Hperm).
  rewrite (merge_sort_Permutation_eq _ _ Hav).
  by rewrite (Permutation_length Hav).
Qed.

Lemma p75_runtime_order_independent_witness :
  p75_runtime quartet_store [2; 0; 3; 1]%nat = p75_runtime quartet_store quartet_edges.
Proof.
  apply p75_runtime_order_independent.
  apply (bool_decide_unpack _). vm_compute. exact I.
Defined.

Lemma strongly_sorted_split (l : list Z) (i : nat) (v : Z) :
  StronglySorted Z.le l → l !! i = Some v →
  Forall (λ x, x ≤ v) (take (S i) l) ∧ Forall (λ x, v ≤ x) (drop i l).
Proof.
  intros Hs. revert i. induction Hs as [| a l Hs IH Hall]; intros i Hi; [done |].
  destruct i as [| i]; simpl in *.
  - injection Hi as ->. split.
    + rewrite take_0. constructor; [lia | constructor].
    + constructor; [lia | done].
  - destruct (IH i Hi) as [H1 H2]. split; [| done].
    constructor; [| done].
    eapply Forall_forall in Hall; [exact Hall |]. by eapply list_elem_of_lookup_2.
Qed.

Lemma filter_Forall_length {A} (P : A → Prop) `{∀ x, Decision (P x)} (l : list A) :
  Forall P l → length (filter P l) = length l.
Proof.
  induction 1 as [| x l Hx Hl IH]; [done |].
  rewrite filter_cons_True by done. simpl. by rewrite IH.
Qed.

(** X14: when estimates exist, at least [n - n // 4] of the [n] collected
    runtimes are no greater than the value returned, and at least
    [n // 4 + 1] of them are no smaller. *)
Theorem p75_runtime_percentile (s : Store) (edges : list edge_ref) (v : Z) :
  available_run_times s edges ≠ [] →
  p75_runtime s edges = Returned v →
  let n := Z.of_nat (length (available_run_times s edges)) in
  n - n `div` 4
  ≤ Z.of_nat (length (filter (λ x, x ≤ v) (available_run_times s edges)))
  ∧ n `div` 4 + 1
    ≤ Z.of_nat (length (filter (λ x, v ≤ x) (available_run_times s edges))).
Proof.
  intros Hne Hret n.
  destruct (p75_runtime_nonempty s edges Hne) as (v' & Hv & Hret').
  rewrite Hret in Hret'. injection Hret' as <-.
  set (avail := available_run_times s edges) in *.
  set (sorted := merge_sort Z.le avail) in *.
  assert (Hlen : length sorted = length avail) by apply merge_sort_length.
  assert (Hn : 1 ≤ n) by (subst n; destruct avail; [done | simpl; lia]).
  pose proof (p75_index_bounds n Hn) as Hidx.
  set (i := Z.to_nat (p75_index n)) in *.
  assert (Hi : Z.of_nat i = n - 1 - n `div` 4) by (subst i; unfold p75_index in *; lia).
  destruct (strongly_sorted_split sorted i v) as [Hlow Hhigh]; [| done |].
  { apply (StronglySorted_merge_sort Z.le). }
  assert (Hperm : sorted ≡ₚ avail) by apply merge_sort_Permutation.
  rewrite <- !Hperm. split.
  - rewrite <- (take_drop (S i) sorted), filter_app, length_app.
    rewrite (filter_Forall_length _ _ Hlow), length_take. lia.
  - rewrite <- (take_drop i sorted), filter_app, length_app.
    rewrite (filter_Forall_length _ _ Hhigh), length_drop. lia.
Qed.

Lemma p75_runtime_percentile_witness :
  4 - 4 `div` 4
  ≤ Z.of_nat (length (filter (λ x, x ≤ 15) (available_run_times quartet_store quartet_edges)))
  ∧ 4 `div` 4 + 1
    ≤ Z.of_nat (length (filter (λ x, 15 ≤ x) (available_run_times quartet_store quartet_edges))).
Proof.
  apply (p75_runtime_percentile quartet_store quartet_edges 15).
  - vm_compute. discriminate.
  - vm_compute. reflexivity.
Defined.
